(* Verification of memento_mori.py: the date arithmetic behind get_age,
   get_remaining_lifespan, get_days_until_birthday and the branching of
   show_message.

   Python's [datetime.date] is modelled as a (year, month, day) record with
   the proleptic Gregorian ordinal of the standard library ([toordinal]);
   [date(...)], [date.replace] and relativedelta's year shift are fallible
   (they raise ValueError out of [MINYEAR, MAXYEAR]) and return [option].
   [date.today()] is an explicit argument [today].

   The float divisions [x / 7] and [total_seconds() / (365.2425*24*3600)]
   followed by [round] are modelled by exact rational rounding, half to
   even.  The exact quotients are never halfway between two integers
   (7 and 3652425 are odd), and their distance to the nearest half is at
   least 1/14 resp. 25/7304850, far above the relative error of a double
   on the magnitudes involved (|days| below 4 million), so the float
   computation rounds to the same integer. *)

From Stdlib Require Import ZArith Lia Bool List String.
Import ListNotations.
Open Scope Z_scope.

(* ------------------------------------------------------------------ *)
(** * Option monad for code that may raise *)

Definition obind {A B} (m : option A) (k : A -> option B) : option B :=
  match m with Some a => k a | None => None end.

Notation "x <- m ;; k" := (obind m (fun x => k))
  (at level 61, m at next level, right associativity).

(* ------------------------------------------------------------------ *)
(** * datetime.date *)

Record date := mkdate { year : Z; month : Z; day : Z }.

Definition MINYEAR : Z := 1.
Definition MAXYEAR : Z := 9999.

(** [_is_leap] *)
Definition is_leap (y : Z) : bool :=
  (y mod 4 =? 0) && (negb (y mod 100 =? 0) || (y mod 400 =? 0)).

(** [_DAYS_IN_MONTH] and [_days_in_month] *)
Definition DAYS_IN_MONTH (m : Z) : Z :=
  match m with
  | 1 => 31 | 2 => 28 | 3 => 31 | 4 => 30 | 5 => 31 | 6 => 30
  | 7 => 31 | 8 => 31 | 9 => 30 | 10 => 31 | 11 => 30 | 12 => 31
  | _ => -1
  end.

Definition days_in_month (y m : Z) : Z :=
  if (m =? 2) && is_leap y then 29 else DAYS_IN_MONTH m.

(** [_DAYS_BEFORE_MONTH] and [_days_before_month] *)
Definition DAYS_BEFORE_MONTH (m : Z) : Z :=
  match m with
  | 1 => 0 | 2 => 31 | 3 => 59 | 4 => 90 | 5 => 120 | 6 => 151
  | 7 => 181 | 8 => 212 | 9 => 243 | 10 => 273 | 11 => 304 | 12 => 334
  | _ => -1
  end.

Definition days_before_month (y m : Z) : Z :=
  DAYS_BEFORE_MONTH m + (if (2 <? m) && is_leap y then 1 else 0).

(** [_days_before_year] *)
Definition days_before_year (y : Z) : Z :=
  let y' := y - 1 in y' * 365 + y' / 4 - y' / 100 + y' / 400.

(** [_days_in_year] is not used by the program; it is the count the
    ordinal advances by over one year. *)
Definition days_in_year (y : Z) : Z := if is_leap y then 366 else 365.

(** [date.toordinal] ([_ymd2ord]) *)
Definition toordinal (d : date) : Z :=
  days_before_year (year d) + days_before_month (year d) (month d) + day d.

(** [_check_date_fields] *)
Definition valid_date (d : date) : bool :=
  (MINYEAR <=? year d) && (year d <=? MAXYEAR) &&
  (1 <=? month d) && (month d <=? 12) &&
  (1 <=? day d) && (day d <=? days_in_month (year d) (month d)).

(** The constructor [date(y, m, d)]: ValueError on invalid fields. *)
Definition mk_date (y m d : Z) : option date :=
  let r := mkdate y m d in if valid_date r then Some r else None.

(** [date.__lt__]: comparison of the (year, month, day) tuples. *)
Definition date_lt (a b : date) : bool :=
  (year a <? year b) ||
  ((year a =? year b) && ((month a <? month b) ||
                          ((month a =? month b) && (day a <? day b)))).

(** [date.__sub__]: the [.days] of the resulting timedelta. *)
Definition date_sub (a b : date) : Z := toordinal a - toordinal b.

(** [a + relativedelta(years=n)] for a date [a]: the year is shifted, the
    day is clipped to [calendar.monthrange(year, month)[1]], and
    [a.replace(...)] raises when the year leaves the supported range. *)
Definition add_years (a : date) (n : Z) : option date :=
  let y := year a + n in
  let d := Z.min (days_in_month y (month a)) (day a) in
  mk_date y (month a) d.

(* ------------------------------------------------------------------ *)
(** * Python's [round] on the exact quotient [p / q], [q > 0] *)

Definition round_div (p q : Z) : Z :=
  let f := p / q in
  let r := p mod q in
  if 2 * r <? q then f
  else if q <? 2 * r then f + 1
  else if Z.even f then f else f + 1.

(** [365.2425 * 24 * 3600] seconds per year; a duration of [n] whole days
    has [n * 86400] seconds, so the year count is [n * 10000 / 3652425]. *)
Definition SECONDS_PER_YEAR_NUM : Z := 3652425.

Definition days_to_years (n : Z) : Z := round_div (n * 10000) SECONDS_PER_YEAR_NUM.

(* ------------------------------------------------------------------ *)
(** * The program *)

(** [get_age] *)
Definition get_age (today date_of_birth : date) : Z :=
  let age_timedelta := date_sub today date_of_birth in
  days_to_years age_timedelta.

(** The dict returned by [get_remaining_lifespan]. *)
Record remaining := mkremaining { days : Z; weeks : Z; years : Z }.

(** [get_remaining_lifespan] *)
Definition get_remaining_lifespan (today date_of_birth : date)
    (life_expectancy : Z) : option remaining :=
  date_of_death <- add_years date_of_birth life_expectancy ;;
  let remaining_timedelta := date_sub date_of_death today in
  Some {| days := remaining_timedelta;
          weeks := round_div remaining_timedelta 7;
          years := days_to_years remaining_timedelta |}.

(** [get_days_until_birthday] *)
Definition get_days_until_birthday (today date_of_birth : date) : option Z :=
  let feb29 := (month date_of_birth =? 2) && (day date_of_birth =? 29) in
  birthday_this_year <-
    (if negb feb29
     then mk_date (year today) (month date_of_birth) (day date_of_birth)
     else mk_date (year today) 2 28) ;;
  birthday_next_year <-
    (if negb feb29
     then mk_date (year today + 1) (month date_of_birth) (day date_of_birth)
     else mk_date (year today + 1) 2 28) ;;
  let next_birthday :=
    if date_lt birthday_this_year today then birthday_next_year
    else birthday_this_year in
  Some (date_sub next_birthday today).

Example ex_age : get_age (mkdate 2024 6 15) (mkdate 1990 6 15) = 34.
Proof. reflexivity. Qed.

Example ex_bday0 : get_days_until_birthday (mkdate 2024 6 15) (mkdate 1990 6 15) = Some 0.
Proof. reflexivity. Qed.

Example ex_bday1 : get_days_until_birthday (mkdate 2024 6 15) (mkdate 1990 6 16) = Some 1.
Proof. reflexivity. Qed.

Example ex_ord : toordinal (mkdate 1 1 1) = 1 /\ toordinal (mkdate 2024 3 1) = 738946.
Proof. split; reflexivity. Qed.

Example ex_newborn :
  get_remaining_lifespan (mkdate 2024 6 15) (mkdate 2024 6 15) 80
  = Some {| days := 29219; weeks := 4174; years := 80 |}.
Proof. reflexivity. Qed.

(* ------------------------------------------------------------------ *)
(** * show_message *)

(** The [st.markdown] and [st.write] calls of [show_message], one
    constructor per call site, carrying the values interpolated into the
    f-string. *)
Inductive line :=
| L_age (age : Z)                  (* "\nToday you are **{age}** years old." *)
| L_in_days (n next_age : Z)       (* "In :red[{n} days] you will turn **{age + 1}**." *)
| L_tomorrow (next_age : Z)        (* ":red[Tomorrow] you will turn **{age + 1}**." *)
| L_remember                       (* "\nRemember that every day could be your last." *)
| L_will_you_live (next_year : Z)  (* "Will you even live to see the year {..}?" *)
| L_imagine (life_expectancy : Z)  (* "\nImagine that you will die at the age of ..." *)
| L_leave                          (* "Which would leave you a remaining lifespan of ..." *)
| L_remaining (y w d : Z)          (* "\n:red[{years} years.] That is {weeks:,} weeks, ..." *)
| L_how                            (* "How will you spend them?" *)
| L_memento                        (* "\n... Memento mori - remember that you will die." *)
| L_live                           (* "... But even more important: ..." *)
| L_empty.                         (* "" *)

Inductive output := Markdown (l : line) | Write (l : line).

Definition show_message (today : date) (age days_until_birthday life_expectancy : Z)
    (rem : remaining) : list output :=
  [Markdown (L_age age)] ++
  (if negb (days_until_birthday =? 0) then
     if 1 <? days_until_birthday
     then [Markdown (L_in_days days_until_birthday (age + 1))]
     else [Markdown (L_tomorrow (age + 1))]
   else []) ++
  [Write L_empty; Markdown L_remember; Markdown (L_will_you_live (year today + 1))] ++
  (if age <? life_expectancy then
     [Write L_empty; Markdown (L_imagine life_expectancy); Write L_leave;
      Markdown (L_remaining (years rem) (weeks rem) (days rem)); Write L_how]
   else []) ++
  [Write L_empty; Markdown L_memento; Markdown L_live].

(** The "you will turn age+1" lines. *)
Definition is_turn_line (o : output) : bool :=
  match o with
  | Markdown (L_in_days _ _) | Markdown (L_tomorrow _) => true
  | _ => false
  end.

(* ------------------------------------------------------------------ *)
(** * date + timedelta, and get_date_of_birth / main *)

(** [_ord2ymd] / [date.fromordinal], split at its month estimate:
    [ord2ymd_month leapyear n] is the (month, preceding) pair the code
    settles on for day-of-year offset [n]. *)
Definition ord2ymd_month (leapyear : bool) (n : Z) : Z * Z :=
  let month := Z.shiftr (n + 50) 5 in
  let preceding :=
    DAYS_BEFORE_MONTH month + (if (2 <? month) && leapyear then 1 else 0) in
  if n <? preceding then
    let month := month - 1 in
    (month, preceding -
            (DAYS_IN_MONTH month + (if (month =? 2) && leapyear then 1 else 0)))
  else (month, preceding).

Definition DI400Y : Z := 146097.
Definition DI100Y : Z := 36524.
Definition DI4Y : Z := 1461.
Definition MAXORDINAL : Z := 3652059.

Definition ord2ymd (n : Z) : date :=
  let n := n - 1 in
  let n400 := n / DI400Y in let n := n mod DI400Y in
  let year := n400 * 400 + 1 in
  let n100 := n / DI100Y in let n := n mod DI100Y in
  let n4 := n / DI4Y in let n := n mod DI4Y in
  let n1 := n / 365 in let n := n mod 365 in
  let year := year + n100 * 100 + n4 * 4 + n1 in
  if (n1 =? 4) || (n100 =? 4) then mkdate (year - 1) 12 31
  else
    let leapyear := (n1 =? 3) && (negb (n4 =? 24) || (n100 =? 3)) in
    let '(month, preceding) := ord2ymd_month leapyear n in
    mkdate year month (n - preceding + 1).

(** [date + timedelta(days=k)]: OverflowError outside [1, MAXORDINAL];
    [date - timedelta(days=k)] is [date + timedelta(days=-k)]. *)
Definition date_add_days (d : date) (k : Z) : option date :=
  let o := toordinal d + k in
  if (0 <? o) && (o <=? MAXORDINAL) then Some (ord2ymd o) else None.

(** The three arguments [get_date_of_birth] passes to [st.date_input]:
    [value] (20 years ago), [min_value] (100 years ago) and [max_value]
    (yesterday), each of which may raise. *)
Definition date_input_args (today : date) : option (date * date * date) :=
  value <- add_years today (-20) ;;
  min_value <- add_years today (-100) ;;
  max_value <- date_add_days today (-1) ;;
  Some (value, min_value, max_value).

(** [get_date_of_birth]: [st.date_input] returns the date [selected] in the
    widget ([value] until the user picks one); its front end only offers
    dates inside [min_value, max_value], see [widget_accepts]. *)
Definition get_date_of_birth (today selected : date) : option date :=
  args <- date_input_args today ;;
  Some selected.

Definition widget_accepts (today selected : date) : bool :=
  match date_input_args today with
  | Some (_, min_value, max_value) =>
      valid_date selected && negb (date_lt selected min_value)
      && negb (date_lt max_value selected)
  | None => false
  end.

(** [main]: the messages shown, [[]] when the button is not clicked; the
    title, widget, button and divider calls are not represented. *)
Definition main (today selected : date) (button_clicked : bool)
    (life_expectancy : Z) : option (list output) :=
  date_of_birth <- get_date_of_birth today selected ;;
  let age := get_age today date_of_birth in
  remaining <- get_remaining_lifespan today date_of_birth life_expectancy ;;
  days_until_birthday <- get_days_until_birthday today date_of_birth ;;
  Some (if button_clicked
        then show_message today age days_until_birthday life_expectancy remaining
        else []).

Example ex_fromordinal :
  ord2ymd 1 = mkdate 1 1 1 /\ ord2ymd 738946 = mkdate 2024 3 1 /\
  ord2ymd 738945 = mkdate 2024 2 29 /\ ord2ymd MAXORDINAL = mkdate 9999 12 31.
Proof. vm_compute. repeat split. Qed.

Example ex_date_input_args :
  date_input_args (mkdate 2024 3 1)
  = Some (mkdate 2004 3 1, mkdate 1924 3 1, mkdate 2024 2 29).
Proof. vm_compute. reflexivity. Qed.

(* ------------------------------------------------------------------ *)
(** * Calendar lemmas *)

Lemma is_leap_succ (y : Z) : is_leap y = true -> is_leap (y + 1) = false.
Proof.
  unfold is_leap. intros H.
  destruct (Z.eqb_spec (y mod 4) 0) as [E|E]; [|discriminate].
  destruct (Z.eqb_spec ((y + 1) mod 4) 0) as [E'|E']; [|reflexivity].
  exfalso. Z.div_mod_to_equations. lia.
Qed.

Lemma days_before_year_succ (y : Z) :
  days_before_year (y + 1) = days_before_year y + days_in_year y.
Proof.
  unfold days_before_year, days_in_year, is_leap.
  replace (y + 1 - 1) with y by lia.
  destruct (Z.eqb_spec (y mod 4) 0), (Z.eqb_spec (y mod 100) 0),
    (Z.eqb_spec (y mod 400) 0); cbn [andb orb negb]; Z.div_mod_to_equations; lia.
Qed.

Lemma days_before_year_mono (y1 y2 : Z) :
  y1 <= y2 -> days_before_year y1 <= days_before_year y2.
Proof.
  intros H. replace y2 with (y1 + Z.of_nat (Z.to_nat (y2 - y1))) by lia.
  induction (Z.to_nat (y2 - y1)) as [|k IH].
  - simpl. rewrite Z.add_0_r. lia.
  - rewrite Nat2Z.inj_succ. unfold Z.succ.
    rewrite Z.add_assoc, days_before_year_succ.
    unfold days_in_year. destruct (is_leap _); lia.
Qed.

(** Within one year, a month ends where the next begins. *)
Lemma month_end_le (y m1 m2 : Z) :
  1 <= m1 <= 12 -> m1 < m2 <= 12 ->
  days_before_month y m1 + days_in_month y m1 <= days_before_month y m2.
Proof.
  intros H1 H2. unfold days_before_month, days_in_month.
  destruct (is_leap y);
  assert (m1 = 1 \/ m1 = 2 \/ m1 = 3 \/ m1 = 4 \/ m1 = 5 \/ m1 = 6 \/
          m1 = 7 \/ m1 = 8 \/ m1 = 9 \/ m1 = 10 \/ m1 = 11 \/ m1 = 12) as M1 by lia;
  assert (m2 = 1 \/ m2 = 2 \/ m2 = 3 \/ m2 = 4 \/ m2 = 5 \/ m2 = 6 \/
          m2 = 7 \/ m2 = 8 \/ m2 = 9 \/ m2 = 10 \/ m2 = 11 \/ m2 = 12) as M2 by lia;
  repeat destruct M1 as [M1|M1]; repeat destruct M2 as [M2|M2]; subst;
  simpl; lia.
Qed.

Lemma month_end_year (y m : Z) :
  1 <= m <= 12 ->
  days_before_month y m + days_in_month y m <= days_in_year y.
Proof.
  intros H. unfold days_before_month, days_in_month, days_in_year.
  destruct (is_leap y);
  assert (m = 1 \/ m = 2 \/ m = 3 \/ m = 4 \/ m = 5 \/ m = 6 \/
          m = 7 \/ m = 8 \/ m = 9 \/ m = 10 \/ m = 11 \/ m = 12) as M by lia;
  repeat destruct M as [M|M]; subst; simpl; lia.
Qed.

Lemma days_before_month_nonneg (y m : Z) :
  1 <= m <= 12 -> 0 <= days_before_month y m.
Proof.
  intros H. unfold days_before_month.
  assert (m = 1 \/ m = 2 \/ m = 3 \/ m = 4 \/ m = 5 \/ m = 6 \/
          m = 7 \/ m = 8 \/ m = 9 \/ m = 10 \/ m = 11 \/ m = 12) as M by lia;
  repeat destruct M as [M|M]; subst; simpl; destruct (is_leap y); simpl; lia.
Qed.

Ltac valid_facts H :=
  unfold valid_date, MINYEAR, MAXYEAR in H;
  repeat rewrite andb_true_iff in H;
  repeat rewrite Z.leb_le in H.

(** The ordinal stays inside the year of the date. *)
Lemma toordinal_year_bounds (d : date) :
  valid_date d = true ->
  days_before_year (year d) < toordinal d <= days_before_year (year d + 1).
Proof.
  intros H. valid_facts H.
  pose proof (month_end_year (year d) (month d)).
  pose proof (days_before_month_nonneg (year d) (month d)).
  rewrite days_before_year_succ. unfold toordinal. lia.
Qed.

Lemma toordinal_lt (a b : date) :
  valid_date a = true -> valid_date b = true ->
  date_lt a b = true -> toordinal a < toordinal b.
Proof.
  intros Ha Hb Hlt.
  pose proof (toordinal_year_bounds a Ha). pose proof (toordinal_year_bounds b Hb).
  unfold date_lt in Hlt.
  destruct (Z.ltb_spec (year a) (year b)).
  - pose proof (days_before_year_mono (year a + 1) (year b)). lia.
  - simpl in Hlt. apply andb_true_iff in Hlt as [Hy Hm].
    apply Z.eqb_eq in Hy. valid_facts Ha. valid_facts Hb.
    unfold toordinal. rewrite Hy in *.
    destruct (Z.ltb_spec (month a) (month b)).
    + pose proof (month_end_le (year b) (month a) (month b)). lia.
    + simpl in Hm. apply andb_true_iff in Hm as [Hm Hd].
      apply Z.eqb_eq in Hm. apply Z.ltb_lt in Hd. rewrite Hm. lia.
Qed.

(** The tuple order is total. *)
Lemma date_lt_total (a b : date) :
  date_lt a b = false -> date_lt b a = true \/ a = b.
Proof.
  destruct a as [ya ma da], b as [yb mb db]. unfold date_lt. simpl.
  intros H.
  destruct (Z.ltb_spec ya yb), (Z.eqb_spec ya yb), (Z.ltb_spec ma mb),
    (Z.eqb_spec ma mb), (Z.ltb_spec da db); simpl in H; try discriminate;
  destruct (Z.ltb_spec yb ya), (Z.eqb_spec yb ya), (Z.ltb_spec mb ma),
    (Z.eqb_spec mb ma), (Z.ltb_spec db da); simpl; auto; try lia.
  right. f_equal; lia.
Qed.

Lemma toordinal_le (a b : date) :
  valid_date a = true -> valid_date b = true ->
  date_lt a b = false -> toordinal b <= toordinal a.
Proof.
  intros Ha Hb H. destruct (date_lt_total a b H) as [H'|<-].
  - pose proof (toordinal_lt b a Hb Ha H'). lia.
  - lia.
Qed.

(* ------------------------------------------------------------------ *)
(** * Rounding lemmas *)

Lemma round_div_bound (p q : Z) :
  0 < q -> - q <= 2 * (q * round_div p q - p) <= q.
Proof.
  intros Hq. unfold round_div.
  pose proof (Z.div_mod p q ltac:(lia)) as E.
  pose proof (Z.mod_pos_bound p q Hq) as B.
  set (f := p / q) in *. set (r := p mod q) in *.
  destruct (Z.ltb_spec (2 * r) q); [lia|].
  destruct (Z.ltb_spec q (2 * r)); [lia|].
  destruct (Z.even f); lia.
Qed.

Lemma round_div_mono (p1 p2 q : Z) :
  0 < q -> p1 <= p2 -> round_div p1 q <= round_div p2 q.
Proof.
  intros Hq Hp. destruct (Z.eq_dec p1 p2) as [<-|Hne]; [lia|].
  pose proof (round_div_bound p1 q Hq). pose proof (round_div_bound p2 q Hq).
  assert (q * (round_div p1 q - round_div p2 q) < q * 1) by lia.
  apply Z.mul_lt_mono_pos_l in H1; lia.
Qed.

(* ------------------------------------------------------------------ *)
(** * Year shift *)

Lemma add_years_some (a : date) (n : Z) :
  valid_date a = true -> MINYEAR <= year a + n <= MAXYEAR ->
  add_years a n =
  Some (mkdate (year a + n) (month a)
               (Z.min (days_in_month (year a + n) (month a)) (day a))).
Proof.
  intros Ha Hn. unfold add_years, mk_date.
  replace (valid_date _) with true; [reflexivity|].
  symmetry. valid_facts Ha. unfold MINYEAR, MAXYEAR in Hn.
  unfold valid_date, MINYEAR, MAXYEAR. simpl.
  assert (1 <= days_in_month (year a + n) (month a)).
  { unfold days_in_month. destruct (_ && _); [lia|].
    assert (month a = 1 \/ month a = 2 \/ month a = 3 \/ month a = 4 \/
            month a = 5 \/ month a = 6 \/ month a = 7 \/ month a = 8 \/
            month a = 9 \/ month a = 10 \/ month a = 11 \/ month a = 12)
      as M by lia.
    repeat destruct M as [M|M]; rewrite M; simpl; lia. }
  repeat rewrite andb_true_iff. repeat rewrite Z.leb_le. lia.
Qed.

(** The clipped day loses at most one day (Feb 29 to Feb 28). *)
Lemma add_years_day_bounds (a : date) (y : Z) :
  valid_date a = true ->
  day a - 1 <= Z.min (days_in_month y (month a)) (day a) <= day a.
Proof.
  intros Ha. valid_facts Ha.
  assert (days_in_month (year a) (month a) <= days_in_month y (month a) + 1).
  { unfold days_in_month.
    destruct (Z.eqb_spec (month a) 2) as [->|]; simpl.
    - destruct (is_leap _), (is_leap _); simpl; lia.
    - lia. }
  lia.
Qed.

(** Over [n] calendar years the ordinal advances by [365.2425 * n] days,
    up to a few days: [10000 * ordinal] is within 50000 of
    [3652425 * n]. *)
Lemma days_before_year_approx (y : Z) :
  -20000 < 10000 * days_before_year y - 3652425 * (y - 1) < 10000.
Proof.
  unfold days_before_year. Z.div_mod_to_equations. lia.
Qed.

Lemma add_years_ordinal_approx (a b : date) (n : Z) :
  valid_date a = true -> add_years a n = Some b ->
  -50000 < 10000 * (toordinal b - toordinal a) - 3652425 * n < 50000.
Proof.
  intros Ha Hb. unfold add_years, mk_date in Hb.
  destruct (valid_date (mkdate _ _ _)); inversion Hb; subst; clear Hb.
  pose proof (add_years_day_bounds a (year a + n) Ha).
  pose proof (days_before_year_approx (year a)).
  pose proof (days_before_year_approx (year a + n)).
  unfold toordinal; cbn [year month day].
  assert (-1 <= days_before_month (year a + n) (month a)
                - days_before_month (year a) (month a) <= 1).
  { unfold days_before_month. destruct (_ && _), (_ && _); lia. }
  lia.
Qed.

(* ------------------------------------------------------------------ *)
(** * Choice of the next birthday *)

(** With this year's and next year's occurrence of one month/day, the
    selected occurrence lies 0 to 365 days ahead of today. *)
Lemma next_birthday_bounds (t : date) (m d : Z) :
  valid_date t = true ->
  valid_date (mkdate (year t) m d) = true ->
  valid_date (mkdate (year t + 1) m d) = true ->
  let bty := mkdate (year t) m d in
  let bny := mkdate (year t + 1) m d in
  0 <= date_sub (if date_lt bty t then bny else bty) t < 366.
Proof.
  intros Ht H1 H2 bty bny.
  pose proof (toordinal_year_bounds t Ht) as Tt.
  pose proof (toordinal_year_bounds bty H1) as T1.
  pose proof (toordinal_year_bounds bny H2) as T2.
  unfold bty, bny in *; cbn [year month day] in *. unfold date_sub.
  destruct (date_lt (mkdate (year t) m d) t) eqn:L.
  - pose proof (toordinal_lt _ _ H1 Ht L).
    assert (toordinal (mkdate (year t + 1) m d)
            - toordinal (mkdate (year t) m d) <= 366).
    { unfold toordinal; cbn [year month day]. rewrite days_before_year_succ.
      unfold days_in_year, days_before_month.
      destruct (is_leap (year t)) eqn:Lp.
      + rewrite (is_leap_succ _ Lp). destruct (2 <? m); simpl; lia.
      + destruct (2 <? m), (is_leap (year t + 1)); simpl; lia. }
    lia.
  - pose proof (toordinal_le _ _ H1 Ht L).
    rewrite days_before_year_succ in T1.
    unfold days_in_year in T1. destruct (is_leap (year t)); lia.
Qed.

Lemma mk_date_valid (y m d : Z) :
  valid_date (mkdate y m d) = true -> mk_date y m d = Some (mkdate y m d).
Proof. intros H. unfold mk_date. rewrite H. reflexivity. Qed.

Definition is_feb29 (d : date) : bool := (month d =? 2) && (day d =? 29).

(** Any birthday other than Feb 29 exists in every supported year. *)
Lemma birthday_valid_in_year (b : date) (y : Z) :
  valid_date b = true -> is_feb29 b = false -> MINYEAR <= y <= MAXYEAR ->
  valid_date (mkdate y (month b) (day b)) = true.
Proof.
  intros Hb Hf Hy. unfold is_feb29 in Hf. valid_facts Hb.
  unfold MINYEAR, MAXYEAR in Hy.
  assert (day b <= days_in_month y (month b)).
  { revert Hb. unfold days_in_month.
    destruct (Z.eqb_spec (month b) 2) as [E|E]; cbn [andb].
    - rewrite E in *. apply andb_false_iff in Hf as [Hf|Hf]; [lia|].
      apply Z.eqb_neq in Hf. destruct (is_leap y), (is_leap (year b)); cbn; lia.
    - lia. }
  unfold valid_date, MINYEAR, MAXYEAR; cbn [year month day].
  repeat rewrite andb_true_iff. repeat rewrite Z.leb_le. lia.
Qed.

Lemma feb28_valid (y : Z) :
  MINYEAR <= y <= MAXYEAR -> valid_date (mkdate y 2 28) = true.
Proof.
  intros H. unfold MINYEAR, MAXYEAR in H. unfold valid_date, days_in_month.
  cbn [year month day]. unfold MINYEAR, MAXYEAR.
  destruct (is_leap y); cbn;
  repeat rewrite andb_true_iff; repeat rewrite Z.leb_le; lia.
Qed.

(** [get_days_until_birthday] compares this year's and next year's
    occurrence of month/day [(m, d)], with [(2, 28)] standing in for Feb 29. *)
Lemma get_days_until_birthday_eq (t b : date) :
  valid_date t = true -> valid_date b = true -> year t < MAXYEAR ->
  let '(m, d) := if is_feb29 b then (2, 28) else (month b, day b) in
  valid_date (mkdate (year t) m d) = true /\
  valid_date (mkdate (year t + 1) m d) = true /\
  get_days_until_birthday t b =
  Some (date_sub (if date_lt (mkdate (year t) m d) t
                  then mkdate (year t + 1) m d else mkdate (year t) m d) t).
Proof.
  intros Ht Hb Hy.
  assert (Yt : MINYEAR <= year t <= MAXYEAR).
  { valid_facts Ht. unfold MINYEAR, MAXYEAR. lia. }
  assert (Yt1 : MINYEAR <= year t + 1 <= MAXYEAR).
  { unfold MINYEAR, MAXYEAR in *. lia. }
  unfold get_days_until_birthday. fold (is_feb29 b).
  destruct (is_feb29 b) eqn:F; cbn [negb].
  - pose proof (feb28_valid _ Yt). pose proof (feb28_valid _ Yt1).
    rewrite !mk_date_valid by assumption. auto.
  - pose proof (birthday_valid_in_year b _ Hb F Yt).
    pose proof (birthday_valid_in_year b _ Hb F Yt1).
    rewrite !mk_date_valid by assumption. auto.
Qed.

(** A valid Feb 29 lies in a leap year. *)
Lemma feb29_leap (d : date) :
  valid_date d = true -> is_feb29 d = true -> is_leap (year d) = true.
Proof.
  intros Hd Hf. unfold is_feb29 in Hf. apply andb_true_iff in Hf as [Hm Hday].
  apply Z.eqb_eq in Hm. apply Z.eqb_eq in Hday. valid_facts Hd.
  unfold days_in_month in Hd. rewrite Hm in Hd. cbn in Hd.
  destruct (is_leap (year d)); [reflexivity|]. cbn in Hd. lia.
Qed.

Lemma add_years_valid (a b : date) (n : Z) :
  add_years a n = Some b -> valid_date b = true.
Proof.
  unfold add_years, mk_date. destruct (valid_date (mkdate _ _ _)) eqn:V;
  intros H; inversion H; subst; auto.
Qed.

Lemma date_lt_irrefl (d : date) : date_lt d d = false.
Proof.
  unfold date_lt. rewrite !Z.ltb_irrefl, !Z.eqb_refl. reflexivity.
Qed.

Lemma feb28_before_feb29 (y : Z) : date_lt (mkdate y 2 28) (mkdate y 2 29) = true.
Proof.
  unfold date_lt; cbn [year month day]. rewrite Z.ltb_irrefl, Z.eqb_refl.
  reflexivity.
Qed.

(** From Feb 29 of a leap year to Feb 28 of the next year. *)
Lemma feb29_to_next_feb28 (y : Z) :
  is_leap y = true -> date_sub (mkdate (y + 1) 2 28) (mkdate y 2 29) = 365.
Proof.
  intros L. unfold date_sub, toordinal; cbn [year month day].
  rewrite days_before_year_succ. unfold days_in_year, days_before_month.
  rewrite L. replace (DAYS_BEFORE_MONTH 2) with 31 by reflexivity.
  replace (2 <? 2) with false by reflexivity. cbn [andb]. lia.
Qed.

(* ================================================================== *)
(** * Claims *)

(** C1 (counterexample): for birth date 2000-02-29 and life expectancy 80
    the projected date of death is not 2080-02-28. *)
Lemma C1_death_date_not_feb28 :
  add_years (mkdate 2000 2 29) 80 <> Some (mkdate 2080 2 28).
Proof. vm_compute. discriminate. Qed.

(** C1 (amended): 2080 is a leap year, so 2000-02-29 plus 80 years is
    2080-02-29 without any fallback; on 2024-03-01 the days field is the
    20453 days from today to 2080-02-29 (2922 weeks, 56 years). *)
Theorem C1_death_date_2080_02_29 :
  add_years (mkdate 2000 2 29) 80 = Some (mkdate 2080 2 29) /\
  date_sub (mkdate 2080 2 29) (mkdate 2024 3 1) = 20453 /\
  get_remaining_lifespan (mkdate 2024 3 1) (mkdate 2000 2 29) 80
  = Some {| days := 20453; weeks := 2922; years := 56 |}.
Proof. vm_compute. auto. Qed.

(** C2 (counterexample): a life expectancy of 0 is not rejected; a record
    with negative durations is returned. *)
Lemma C2_zero_expectancy_returns :
  get_remaining_lifespan (mkdate 2024 6 15) (mkdate 1990 6 15) 0 <> None /\
  get_remaining_lifespan (mkdate 2024 6 15) (mkdate 1990 6 15) 0
  = Some {| days := -12419; weeks := -1774; years := -34 |}.
Proof. vm_compute. split; [discriminate | reflexivity]. Qed.

(** C2 (amended): [get_remaining_lifespan] does not validate the life
    expectancy: for every [n <= 0] whose shifted year is still at least 1
    it returns a record, and when the birth date is not later than today
    its days field is [<= 0]. *)
Theorem C2_nonpositive_expectancy_accepted (t b : date) (n : Z) :
  valid_date t = true -> valid_date b = true ->
  n <= 0 -> MINYEAR <= year b + n ->
  exists r, get_remaining_lifespan t b n = Some r /\
            (date_lt t b = false -> days r <= 0).
Proof.
  intros Ht Hb Hn Hy.
  assert (Hr : MINYEAR <= year b + n <= MAXYEAR).
  { pose proof Hb as V. valid_facts V. unfold MINYEAR, MAXYEAR in *. lia. }
  pose proof (add_years_some b n Hb Hr) as E.
  pose proof (add_years_valid _ _ _ E) as V'.
  unfold get_remaining_lifespan. rewrite E. cbn [obind].
  eexists; split; [reflexivity|]. cbn [days]. intros Hle.
  pose proof (toordinal_le t b Ht Hb Hle).
  set (b' := mkdate _ _ _) in *.
  assert (toordinal b' <= toordinal b).
  { destruct (Z.eq_dec n 0) as [->|Hne].
    - assert (b' = b) as ->; [|lia].
      unfold b'. rewrite Z.add_0_r. pose proof Hb as V. valid_facts V.
      destruct b as [y m d]; cbn [year month day] in *. f_equal. lia.
    - assert (date_lt b' b = true).
      { unfold date_lt, b'; cbn [year]. apply orb_true_iff. left.
        apply Z.ltb_lt. lia. }
      pose proof (toordinal_lt b' b V' Hb H0). lia. }
  unfold date_sub. lia.
Qed.

Lemma C2_nonpositive_expectancy_accepted_witness :
  (valid_date (mkdate 2024 6 15) = true /\ valid_date (mkdate 1990 6 15) = true /\
   0 <= 0 /\ MINYEAR <= 1990 + 0) /\
  exists r, get_remaining_lifespan (mkdate 2024 6 15) (mkdate 1990 6 15) 0 = Some r /\
            (date_lt (mkdate 2024 6 15) (mkdate 1990 6 15) = false -> days r <= 0).
Proof.
  split; [vm_compute; repeat split; discriminate|].
  apply (C2_nonpositive_expectancy_accepted (mkdate 2024 6 15) (mkdate 1990 6 15) 0);
    [reflexivity | reflexivity | lia | vm_compute; discriminate].
Defined.

(** C3: for valid dates (today's year below MAXYEAR, so that next year's
    occurrence can be built) [get_days_until_birthday] returns a number of
    days in [0, 366).  The bound does not need the birth date to be before
    today. *)
Theorem C3_days_until_birthday_range (t b : date) :
  valid_date t = true -> valid_date b = true -> year t < MAXYEAR ->
  exists n, get_days_until_birthday t b = Some n /\ 0 <= n < 366.
Proof.
  intros Ht Hb Hy. pose proof (get_days_until_birthday_eq t b Ht Hb Hy) as E.
  destruct (is_feb29 b); destruct E as (V1 & V2 & E);
  (eexists; split; [exact E|]); apply next_birthday_bounds; assumption.
Qed.

Lemma C3_days_until_birthday_range_witness :
  (valid_date (mkdate 2024 6 15) = true /\ valid_date (mkdate 1990 6 14) = true /\
   2024 < MAXYEAR) /\
  exists n, get_days_until_birthday (mkdate 2024 6 15) (mkdate 1990 6 14) = Some n /\
            0 <= n < 366.
Proof.
  split; [repeat split; reflexivity|].
  apply C3_days_until_birthday_range; reflexivity.
Defined.

(** C4 (counterexample): born today on 2024-02-29, the days until the next
    birthday are 365, not 0. *)
Lemma C4_feb29_born_today :
  get_days_until_birthday (mkdate 2024 2 29) (mkdate 2024 2 29) <> Some 0 /\
  get_days_until_birthday (mkdate 2024 2 29) (mkdate 2024 2 29) = Some 365.
Proof. vm_compute. split; [discriminate | reflexivity]. Qed.

(** C4 (amended): when the birth date equals today, the age is 0; the
    days until the birthday are 0, except when the date is Feb 29, where
    they are 365 (the Feb 28 stand-in already passed). *)
Theorem C4_born_today (d : date) :
  valid_date d = true -> year d < MAXYEAR ->
  get_age d d = 0 /\
  get_days_until_birthday d d = Some (if is_feb29 d then 365 else 0).
Proof.
  intros Hd Hy. split.
  - unfold get_age, date_sub. rewrite Z.sub_diag. reflexivity.
  - pose proof (get_days_until_birthday_eq d d Hd Hd Hy) as E.
    destruct (is_feb29 d) eqn:F; destruct E as (V1 & V2 & E); rewrite E.
    + pose proof (feb29_leap d Hd F) as L.
      unfold is_feb29 in F. apply andb_true_iff in F as [Fm Fd].
      apply Z.eqb_eq in Fm. apply Z.eqb_eq in Fd.
      destruct d as [y m dd]; cbn [year month day] in *; subst.
      rewrite feb28_before_feb29. rewrite (feb29_to_next_feb28 _ L). reflexivity.
    + destruct d as [y m dd]; cbn [year month day].
      rewrite date_lt_irrefl. unfold date_sub. rewrite Z.sub_diag. reflexivity.
Qed.

Lemma C4_born_today_witness :
  (valid_date (mkdate 2024 6 15) = true /\ 2024 < MAXYEAR) /\
  get_age (mkdate 2024 6 15) (mkdate 2024 6 15) = 0 /\
  get_days_until_birthday (mkdate 2024 6 15) (mkdate 2024 6 15)
  = Some (if is_feb29 (mkdate 2024 6 15) then 365 else 0).
Proof.
  split; [split; reflexivity|].
  apply C4_born_today; reflexivity.
Defined.

(** C5: for a birth date of Feb 29, [get_days_until_birthday] builds this
    and next year's Feb 28 (valid in every year) and returns a result, and
    the year shift of [get_remaining_lifespan] clips the day to Feb 28 in a
    non-leap target year, so it returns a result too, for every target year
    inside Python's supported range. *)
Theorem C5_feb29_no_error (t b : date) (n : Z) :
  valid_date t = true -> valid_date b = true -> is_feb29 b = true ->
  year t < MAXYEAR -> MINYEAR <= year b + n <= MAXYEAR ->
  get_days_until_birthday t b =
  Some (date_sub (if date_lt (mkdate (year t) 2 28) t
                  then mkdate (year t + 1) 2 28 else mkdate (year t) 2 28) t) /\
  add_years b n =
  Some (mkdate (year b + n) 2 (if is_leap (year b + n) then 29 else 28)) /\
  exists r, get_remaining_lifespan t b n = Some r.
Proof.
  intros Ht Hb F Hy Hn.
  pose proof (get_days_until_birthday_eq t b Ht Hb Hy) as E. rewrite F in E.
  destruct E as (_ & _ & E).
  pose proof F as F'. unfold is_feb29 in F'. apply andb_true_iff in F' as [Fm Fd].
  apply Z.eqb_eq in Fm. apply Z.eqb_eq in Fd.
  assert (A : add_years b n =
          Some (mkdate (year b + n) 2 (if is_leap (year b + n) then 29 else 28))).
  { rewrite (add_years_some b n Hb Hn). rewrite Fm, Fd.
    unfold days_in_month. rewrite Z.eqb_refl. cbn [andb].
    destruct (is_leap (year b + n)); reflexivity. }
  split; [exact E|]. split; [exact A|].
  unfold get_remaining_lifespan. rewrite A. cbn [obind]. eexists; reflexivity.
Qed.

Lemma C5_feb29_no_error_witness :
  (valid_date (mkdate 2023 3 1) = true /\ valid_date (mkdate 2000 2 29) = true /\
   is_feb29 (mkdate 2000 2 29) = true /\ 2023 < MAXYEAR /\
   MINYEAR <= 2000 + 79 <= MAXYEAR) /\
  get_days_until_birthday (mkdate 2023 3 1) (mkdate 2000 2 29) =
  Some (date_sub (if date_lt (mkdate 2023 2 28) (mkdate 2023 3 1)
                  then mkdate (2023 + 1) 2 28 else mkdate 2023 2 28) (mkdate 2023 3 1)) /\
  add_years (mkdate 2000 2 29) 79 =
  Some (mkdate (2000 + 79) 2 (if is_leap (2000 + 79) then 29 else 28)) /\
  exists r, get_remaining_lifespan (mkdate 2023 3 1) (mkdate 2000 2 29) 79 = Some r.
Proof.
  split; [repeat split; try reflexivity; vm_compute; discriminate|].
  apply (C5_feb29_no_error (mkdate 2023 3 1) (mkdate 2000 2 29) 79);
    try reflexivity; vm_compute; split; discriminate.
Defined.

(** C6: whenever the projected year of death is in Python's range, the
    years field of the remaining lifespan and [life_expectancy - age]
    differ by at most 1.  (The birth date need not precede today.) *)
Theorem C6_remaining_years_vs_age (t b : date) (n : Z) :
  valid_date b = true -> 1 <= n -> year b + n <= MAXYEAR ->
  exists r, get_remaining_lifespan t b n = Some r /\
            Z.abs (years r - (n - get_age t b)) <= 1.
Proof.
  intros Hb Hn Hy.
  assert (Hr : MINYEAR <= year b + n <= MAXYEAR).
  { pose proof Hb as V. valid_facts V. unfold MINYEAR, MAXYEAR in *. lia. }
  destruct (add_years b n) as [b'|] eqn:E.
  2:{ rewrite (add_years_some b n Hb Hr) in E. discriminate. }
  pose proof (add_years_ordinal_approx b b' n Hb E) as A.
  unfold get_remaining_lifespan. rewrite E. cbn [obind].
  eexists; split; [reflexivity|]. cbn [years].
  unfold get_age, days_to_years, date_sub, SECONDS_PER_YEAR_NUM.
  pose proof (round_div_bound ((toordinal b' - toordinal t) * 10000) 3652425
                ltac:(lia)).
  pose proof (round_div_bound ((toordinal t - toordinal b) * 10000) 3652425
                ltac:(lia)).
  lia.
Qed.

Lemma C6_remaining_years_vs_age_witness :
  (valid_date (mkdate 1990 6 15) = true /\ 1 <= 80 /\ 1990 + 80 <= MAXYEAR) /\
  exists r, get_remaining_lifespan (mkdate 2024 6 15) (mkdate 1990 6 15) 80 = Some r /\
            Z.abs (years r - (80 - get_age (mkdate 2024 6 15) (mkdate 1990 6 15))) <= 1.
Proof.
  split; [split; [reflexivity | split; vm_compute; discriminate]|].
  apply C6_remaining_years_vs_age;
    [reflexivity | vm_compute; discriminate | vm_compute; discriminate].
Defined.

(** C7: for a fixed today, an earlier birth date never gives a smaller
    age. *)
Theorem C7_get_age_antitone (t b1 b2 : date) :
  valid_date b1 = true -> valid_date b2 = true -> date_lt b1 b2 = true ->
  get_age t b2 <= get_age t b1.
Proof.
  intros H1 H2 L. pose proof (toordinal_lt b1 b2 H1 H2 L).
  unfold get_age, days_to_years, date_sub, SECONDS_PER_YEAR_NUM.
  apply round_div_mono; lia.
Qed.

Lemma C7_get_age_antitone_witness :
  (valid_date (mkdate 1990 6 15) = true /\ valid_date (mkdate 1990 12 15) = true /\
   date_lt (mkdate 1990 6 15) (mkdate 1990 12 15) = true) /\
  get_age (mkdate 2024 9 15) (mkdate 1990 12 15) <=
  get_age (mkdate 2024 9 15) (mkdate 1990 6 15).
Proof.
  split; [repeat split; reflexivity|].
  apply C7_get_age_antitone; reflexivity.
Defined.

(** C9: the weeks field is the days field divided by 7 and rounded, so the
    two differ by at most 3 days. *)
Theorem C9_weeks_close_to_days (t b : date) (n : Z) (r : remaining) :
  get_remaining_lifespan t b n = Some r -> Z.abs (days r - 7 * weeks r) <= 3.
Proof.
  unfold get_remaining_lifespan. destruct (add_years b n) as [b'|]; cbn [obind];
    intros H; inversion H; subst; clear H.
  cbn [days weeks].
  pose proof (round_div_bound (date_sub b' t) 7 ltac:(lia)). lia.
Qed.

Lemma C9_weeks_close_to_days_witness :
  get_remaining_lifespan (mkdate 2024 3 1) (mkdate 2000 2 29) 80
  = Some {| days := 20453; weeks := 2922; years := 56 |} /\
  Z.abs (20453 - 7 * 2922) <= 3.
Proof.
  split; [vm_compute; reflexivity|].
  apply (C9_weeks_close_to_days (mkdate 2024 3 1) (mkdate 2000 2 29) 80
           {| days := 20453; weeks := 2922; years := 56 |}).
  vm_compute. reflexivity.
Defined.

(** C8: the "you will turn age+1" lines of [show_message] are the
    "In N days" line when [days_until_birthday > 1], the "Tomorrow" line
    when it is 1 and none when it is 0; for a days-until-birthday value
    (never negative) a turn line is shown exactly when it is positive. *)
Theorem C8_show_message_turn_line (t : date) (age dub le : Z) (rem : remaining) :
  0 <= dub ->
  (1 < dub -> filter is_turn_line (show_message t age dub le rem)
              = [Markdown (L_in_days dub (age + 1))]) /\
  (dub = 1 -> filter is_turn_line (show_message t age dub le rem)
              = [Markdown (L_tomorrow (age + 1))]) /\
  (dub = 0 -> filter is_turn_line (show_message t age dub le rem) = []) /\
  (existsb is_turn_line (show_message t age dub le rem) = true <-> 0 < dub).
Proof.
  intros Hd.
  assert (F : filter is_turn_line (show_message t age dub le rem) =
              if negb (dub =? 0) then
                if 1 <? dub then [Markdown (L_in_days dub (age + 1))]
                else [Markdown (L_tomorrow (age + 1))]
              else []).
  { unfold show_message. rewrite !filter_app.
    destruct (negb (dub =? 0)); [destruct (1 <? dub)|];
    destruct (age <? le); reflexivity. }
  assert (X : existsb is_turn_line (show_message t age dub le rem) =
              negb (dub =? 0)).
  { unfold show_message. rewrite !existsb_app.
    destruct (negb (dub =? 0)); [destruct (1 <? dub)|];
    destruct (age <? le); reflexivity. }
  rewrite F, X.
  repeat split; intros H.
  - destruct (Z.eqb_spec dub 0); [lia|]. destruct (Z.ltb_spec 1 dub); [reflexivity|lia].
  - subst. reflexivity.
  - subst. reflexivity.
  - destruct (Z.eqb_spec dub 0); cbn in H; [discriminate|lia].
  - destruct (Z.eqb_spec dub 0); [lia|reflexivity].
Qed.

Lemma C8_show_message_turn_line_witness :
  0 <= 1 /\
  filter is_turn_line (show_message (mkdate 2024 6 14) 34 1 80
                         {| days := 16802; weeks := 2400; years := 46 |})
  = [Markdown (L_tomorrow (34 + 1))].
Proof.
  split; [lia|].
  apply (C8_show_message_turn_line (mkdate 2024 6 14) 34 1 80
           {| days := 16802; weeks := 2400; years := 46 |}); [lia | reflexivity].
Defined.

(** C10: for a birth date of Feb 29 the days until the birthday are 0
    exactly when today is Feb 28, and on Feb 29 itself they are 365. *)
Theorem C10_feb29_zero_on_feb28 (t b : date) :
  valid_date t = true -> valid_date b = true -> is_feb29 b = true ->
  year t < MAXYEAR ->
  (get_days_until_birthday t b = Some 0 <-> month t = 2 /\ day t = 28) /\
  (month t = 2 -> day t = 29 -> get_days_until_birthday t b = Some 365).
Proof.
  intros Ht Hb F Hy.
  pose proof (get_days_until_birthday_eq t b Ht Hb Hy) as E. rewrite F in E.
  destruct E as (V1 & V2 & E). rewrite E.
  pose proof (toordinal_year_bounds t Ht) as Tt.
  pose proof (toordinal_year_bounds _ V2) as T2. cbn [year] in T2.
  split.
  - destruct (date_lt (mkdate (year t) 2 28) t) eqn:L.
    + split; intros H.
      * exfalso. injection H. unfold date_sub. lia.
      * destruct H as [Hm Hd]. destruct t as [y m d]; cbn [year month day] in *.
        subst. rewrite date_lt_irrefl in L. discriminate.
    + destruct (date_lt_total _ _ L) as [L'|Eq].
      * pose proof (toordinal_lt _ _ Ht V1 L') as O. split; intros H.
        -- exfalso. injection H. unfold date_sub. lia.
        -- destruct H as [Hm Hd]. destruct t as [y m d]; cbn [year month day] in *.
           subst. rewrite date_lt_irrefl in L'. discriminate.
      * rewrite <- Eq. cbn [month day]. unfold date_sub. rewrite Z.sub_diag.
        split; auto.
  - intros Hm Hd.
    assert (Ft : is_feb29 t = true).
    { unfold is_feb29. rewrite Hm, Hd. reflexivity. }
    pose proof (feb29_leap t Ht Ft) as Lp.
    destruct t as [y m d]; cbn [year month day] in *. subst.
    rewrite feb28_before_feb29, (feb29_to_next_feb28 _ Lp). reflexivity.
Qed.

Lemma C10_feb29_zero_on_feb28_witness :
  (valid_date (mkdate 2023 2 28) = true /\ valid_date (mkdate 2000 2 29) = true /\
   is_feb29 (mkdate 2000 2 29) = true /\ 2023 < MAXYEAR) /\
  (get_days_until_birthday (mkdate 2023 2 28) (mkdate 2000 2 29) = Some 0 <->
   month (mkdate 2023 2 28) = 2 /\ day (mkdate 2023 2 28) = 28).
Proof.
  split; [repeat split; reflexivity|].
  apply (C10_feb29_zero_on_feb28 (mkdate 2023 2 28) (mkdate 2000 2 29));
    reflexivity.
Defined.

(* ------------------------------------------------------------------ *)
(** * date.fromordinal *)

(** The month step of [_ord2ymd], checked on every day offset of a year. *)
Definition month_step_ok (leapyear : bool) (n : Z) : bool :=
  let '(mo, pre) := ord2ymd_month leapyear n in
  (1 <=? mo) && (mo <=? 12) &&
  (pre =? DAYS_BEFORE_MONTH mo + (if (2 <? mo) && leapyear then 1 else 0)) &&
  (0 <=? n - pre) &&
  (n - pre <? (if (mo =? 2) && leapyear then 29 else DAYS_IN_MONTH mo)).

Lemma month_step_ok_all :
  forallb (month_step_ok true) (map Z.of_nat (seq 0 366)) &&
  forallb (month_step_ok false) (map Z.of_nat (seq 0 365)) = true.
Proof. vm_compute. reflexivity. Qed.

Lemma in_Zrange (n : Z) (k : nat) :
  0 <= n < Z.of_nat k -> In n (map Z.of_nat (seq 0 k)).
Proof.
  intros H. apply in_map_iff. exists (Z.to_nat n). split; [lia|].
  apply in_seq. lia.
Qed.

Lemma month_step_spec (leapyear : bool) (n : Z) :
  0 <= n <= 364 ->
  let '(mo, pre) := ord2ymd_month leapyear n in
  1 <= mo <= 12 /\
  pre = DAYS_BEFORE_MONTH mo + (if (2 <? mo) && leapyear then 1 else 0) /\
  0 <= n - pre < (if (mo =? 2) && leapyear then 29 else DAYS_IN_MONTH mo).
Proof.
  intros Hn. pose proof month_step_ok_all as A.
  apply andb_true_iff in A as [A1 A2].
  assert (C : month_step_ok leapyear n = true).
  { destruct leapyear.
    - rewrite forallb_forall in A1. apply A1, in_Zrange. lia.
    - rewrite forallb_forall in A2. apply A2, in_Zrange. lia. }
  unfold month_step_ok in C. destruct (ord2ymd_month leapyear n) as [mo pre].
  repeat rewrite andb_true_iff in C.
  destruct C as [[[[C1 C2] C3] C4] C5].
  apply Z.leb_le in C1, C2, C4. apply Z.eqb_eq in C3. apply Z.ltb_lt in C5.
  lia.
Qed.

(** The year count of a 400/100/4/1-year decomposition. *)
Lemma days_before_year_cycles (a b c d : Z) :
  0 <= b <= 3 -> 0 <= c <= 24 -> 0 <= d <= 3 ->
  days_before_year (400 * a + 100 * b + 4 * c + d + 1)
  = 146097 * a + 36524 * b + 1461 * c + 365 * d.
Proof.
  intros Hb Hc Hd. unfold days_before_year.
  replace (400 * a + 100 * b + 4 * c + d + 1 - 1)
    with (400 * a + 100 * b + 4 * c + d) by lia.
  Z.div_mod_to_equations. lia.
Qed.

Lemma is_leap_cycles (a b c d : Z) :
  0 <= b <= 3 -> 0 <= c <= 24 -> 0 <= d <= 3 ->
  is_leap (400 * a + 100 * b + 4 * c + d + 1)
  = (d =? 3) && (negb (c =? 24) || (b =? 3)).
Proof.
  intros Hb Hc Hd. unfold is_leap.
  set (y := 400 * a + 100 * b + 4 * c + d + 1).
  destruct (Z.eqb_spec (y mod 4) 0), (Z.eqb_spec (y mod 100) 0),
    (Z.eqb_spec (y mod 400) 0), (Z.eqb_spec d 3), (Z.eqb_spec c 24),
    (Z.eqb_spec b 3); cbn [andb orb negb]; try reflexivity;
  exfalso; unfold y in *; Z.div_mod_to_equations; lia.
Qed.

Lemma ord2ymd_correct (n : Z) :
  1 <= n ->
  toordinal (ord2ymd n) = n /\ 1 <= year (ord2ymd n) /\
  1 <= month (ord2ymd n) <= 12 /\
  1 <= day (ord2ymd n) <= days_in_month (year (ord2ymd n)) (month (ord2ymd n)).
Proof.
  intros Hn. unfold ord2ymd, DI400Y, DI100Y, DI4Y.
  set (m := n - 1).
  set (a := m / 146097). set (r0 := m mod 146097).
  set (b := r0 / 36524). set (r1 := r0 mod 36524).
  set (c := r1 / 1461). set (r2 := r1 mod 1461).
  set (e := r2 / 365). set (r3 := r2 mod 365).
  assert (E0 : m = 146097 * a + r0) by (apply Z.div_mod; lia).
  assert (B0 : 0 <= r0 < 146097) by (apply Z.mod_pos_bound; lia).
  assert (E1 : r0 = 36524 * b + r1) by (apply Z.div_mod; lia).
  assert (B1 : 0 <= r1 < 36524) by (apply Z.mod_pos_bound; lia).
  assert (E2 : r1 = 1461 * c + r2) by (apply Z.div_mod; lia).
  assert (B2 : 0 <= r2 < 1461) by (apply Z.mod_pos_bound; lia).
  assert (E3 : r2 = 365 * e + r3) by (apply Z.div_mod; lia).
  assert (B3 : 0 <= r3 < 365) by (apply Z.mod_pos_bound; lia).
  assert (Ha : 0 <= a) by (apply Z.div_pos; lia).
  assert (Hb : 0 <= b <= 4) by lia.
  assert (Hc : 0 <= c <= 24) by lia.
  assert (He : 0 <= e <= 4) by lia.
  destruct (Z.eqb_spec e 4) as [He4|He4]; cbn [orb].
  - (* the last day of a leap year, inside a 4-year cycle *)
    assert (b <= 3 /\ c <= 23 /\ r3 = 0) as (Hb3 & Hc23 & Hr3) by lia.
    replace (a * 400 + 1 + b * 100 + c * 4 + e - 1)
      with (400 * a + 100 * b + 4 * c + 3 + 1) by lia.
    unfold toordinal, days_before_month, days_in_month; cbn [year month day].
    rewrite days_before_year_cycles, is_leap_cycles by lia.
    destruct (Z.eqb_spec c 24); [lia|].
    change (DAYS_BEFORE_MONTH 12) with 334. change (2 <? 12) with true.
    change (12 =? 2) with false. change (DAYS_IN_MONTH 12) with 31.
    change (3 =? 3) with true. cbn [andb orb negb]. lia.
  - destruct (Z.eqb_spec b 4) as [Hb4|Hb4]; cbn [orb].
    + (* the last day of a 400-year cycle *)
      assert (c = 0 /\ e = 0 /\ r3 = 0) as (Hc0 & He0 & Hr3) by lia.
      replace (a * 400 + 1 + b * 100 + c * 4 + e - 1)
        with (400 * a + 100 * 3 + 4 * 24 + 3 + 1) by lia.
      unfold toordinal, days_before_month, days_in_month; cbn [year month day].
      rewrite days_before_year_cycles, is_leap_cycles by lia.
      change (DAYS_BEFORE_MONTH 12) with 334. change (2 <? 12) with true.
      change (12 =? 2) with false. change (DAYS_IN_MONTH 12) with 31.
      change (3 =? 3) with true. change (24 =? 24) with true.
      cbn [andb orb negb]. lia.
    + pose proof (month_step_spec ((e =? 3) && (negb (c =? 24) || (b =? 3))) r3
                    ltac:(lia)) as M.
      destruct (ord2ymd_month _ r3) as [mo pre].
      replace (a * 400 + 1 + b * 100 + c * 4 + e)
        with (400 * a + 100 * b + 4 * c + e + 1) by lia.
      unfold toordinal, days_before_month, days_in_month; cbn [year month day].
      rewrite days_before_year_cycles, is_leap_cycles by lia.
      lia.
Qed.

Lemma days_before_year_10000 : days_before_year 10000 = MAXORDINAL.
Proof. reflexivity. Qed.

Lemma ord2ymd_valid (n : Z) :
  1 <= n <= MAXORDINAL ->
  valid_date (ord2ymd n) = true /\ toordinal (ord2ymd n) = n.
Proof.
  intros Hn. destruct (ord2ymd_correct n ltac:(lia)) as (O & Y & Mo & D).
  split; [|exact O].
  assert (year (ord2ymd n) <= MAXYEAR).
  { unfold MAXYEAR. destruct (Z.le_gt_cases (year (ord2ymd n)) 9999); [lia|].
    exfalso. pose proof (days_before_year_mono 10000 (year (ord2ymd n)) ltac:(lia)).
    pose proof (days_before_month_nonneg (year (ord2ymd n)) (month (ord2ymd n)) Mo).
    rewrite days_before_year_10000 in *. unfold toordinal in O. lia. }
  unfold valid_date, MINYEAR. repeat rewrite andb_true_iff. repeat rewrite Z.leb_le.
  lia.
Qed.

Lemma toordinal_range (d : date) :
  valid_date d = true -> 1 <= toordinal d <= MAXORDINAL.
Proof.
  intros Hd. pose proof (toordinal_year_bounds d Hd).
  pose proof Hd as V. valid_facts V.
  pose proof (days_before_year_mono 1 (year d) ltac:(lia)).
  pose proof (days_before_year_mono (year d + 1) 10000 ltac:(lia)).
  rewrite days_before_year_10000 in *.
  change (days_before_year 1) with 0 in *. lia.
Qed.

Lemma toordinal_inj (a b : date) :
  valid_date a = true -> valid_date b = true -> toordinal a = toordinal b -> a = b.
Proof.
  intros Ha Hb E. destruct (date_lt a b) eqn:L.
  - pose proof (toordinal_lt a b Ha Hb L). lia.
  - destruct (date_lt_total a b L) as [L'|]; [|assumption].
    pose proof (toordinal_lt b a Hb Ha L'). lia.
Qed.

Lemma ord2ymd_toordinal (d : date) :
  valid_date d = true -> ord2ymd (toordinal d) = d.
Proof.
  intros Hd. pose proof (toordinal_range d Hd).
  destruct (ord2ymd_valid (toordinal d) H) as [V O].
  apply toordinal_inj; assumption.
Qed.

Lemma date_add_days_spec (d : date) (k : Z) :
  1 <= toordinal d + k <= MAXORDINAL ->
  exists e, date_add_days d k = Some e /\ valid_date e = true /\
            toordinal e = toordinal d + k.
Proof.
  intros H. unfold date_add_days.
  replace ((0 <? toordinal d + k) && (toordinal d + k <=? MAXORDINAL)) with true
    by (symmetry; apply andb_true_iff; split; [apply Z.ltb_lt | apply Z.leb_le]; lia).
  exists (ord2ymd (toordinal d + k)). split; [reflexivity|]. apply ord2ymd_valid. lia.
Qed.

Lemma round_div_exact (p q k : Z) :
  0 < q -> 2 * Z.abs (p - q * k) < q -> round_div p q = k.
Proof.
  intros Hq H. pose proof (round_div_bound p q Hq).
  assert (q * (round_div p q - k) < q * 1 /\ q * (-1) < q * (round_div p q - k))
    as [H1 H2] by lia.
  apply Z.mul_lt_mono_pos_l in H1, H2; lia.
Qed.

Lemma mk_date_year_out (y m d : Z) :
  ~ (MINYEAR <= y <= MAXYEAR) -> mk_date y m d = None.
Proof.
  intros H. unfold mk_date, valid_date; cbn [year].
  destruct (Z.leb_spec MINYEAR y), (Z.leb_spec y MAXYEAR); try lia; reflexivity.
Qed.

Lemma days_until_birthday_year_max (t b : date) :
  year t = MAXYEAR -> get_days_until_birthday t b = None.
Proof.
  intros Hy. unfold get_days_until_birthday.
  rewrite (mk_date_year_out (year t + 1)), (mk_date_year_out (year t + 1))
    by (unfold MINYEAR, MAXYEAR in *; lia).
  destruct (negb _); destruct (mk_date _ _ _); reflexivity.
Qed.

(* ================================================================== *)
(** * Further properties of the program *)

(** X1: [get_remaining_lifespan] raises exactly when the projected year of
    death [year + life_expectancy] leaves Python's range 1..9999. *)
Theorem X1_remaining_lifespan_error (t b : date) (n : Z) :
  valid_date b = true ->
  get_remaining_lifespan t b n = None <-> ~ (MINYEAR <= year b + n <= MAXYEAR).
Proof.
  intros Hb. unfold get_remaining_lifespan. split.
  - intros H Hr. rewrite (add_years_some b n Hb Hr) in H. discriminate.
  - intros H. unfold add_years. rewrite mk_date_year_out by assumption. reflexivity.
Qed.

Lemma X1_remaining_lifespan_error_witness :
  valid_date (mkdate 1990 6 15) = true /\
  (get_remaining_lifespan (mkdate 2024 6 15) (mkdate 1990 6 15) 10000 = None <->
   ~ (MINYEAR <= 1990 + 10000 <= MAXYEAR)).
Proof.
  split; [reflexivity|].
  apply (X1_remaining_lifespan_error (mkdate 2024 6 15) (mkdate 1990 6 15) 10000).
  reflexivity.
Defined.

(** X2: [get_days_until_birthday] raises exactly when today is in year
    9999, where next year's occurrence cannot be built (even when it is not
    needed). *)
Theorem X2_days_until_birthday_error (t b : date) :
  valid_date t = true -> valid_date b = true ->
  get_days_until_birthday t b = None <-> year t = MAXYEAR.
Proof.
  intros Ht Hb. split.
  - intros H. pose proof Ht as V. valid_facts V.
    destruct (Z.eq_dec (year t) MAXYEAR) as [|Hne]; [assumption|].
    assert (Hy : year t < MAXYEAR) by (unfold MAXYEAR in *; lia).
    pose proof (get_days_until_birthday_eq t b Ht Hb Hy) as E.
    destruct (is_feb29 b); destruct E as (_ & _ & E); congruence.
  - apply days_until_birthday_year_max.
Qed.

Lemma X2_days_until_birthday_error_witness :
  (valid_date (mkdate 9999 3 1) = true /\ valid_date (mkdate 1990 6 15) = true) /\
  (get_days_until_birthday (mkdate 9999 3 1) (mkdate 1990 6 15) = None <->
   year (mkdate 9999 3 1) = MAXYEAR).
Proof.
  split; [split; reflexivity|].
  apply X2_days_until_birthday_error; reflexivity.
Defined.

(** X3: the age of the date exactly [k] calendar years before today
    ([today - relativedelta(years=k)], as the widget's default value with
    [k = 20]) is exactly [k]. *)
Theorem X3_age_of_k_years_ago (t b : date) (k : Z) :
  valid_date t = true -> add_years t (- k) = Some b -> get_age t b = k.
Proof.
  intros Ht E. pose proof (add_years_ordinal_approx t b (- k) Ht E).
  unfold get_age, days_to_years, date_sub, SECONDS_PER_YEAR_NUM.
  apply round_div_exact; lia.
Qed.

Lemma X3_age_of_k_years_ago_witness :
  (valid_date (mkdate 2024 2 29) = true /\
   add_years (mkdate 2024 2 29) (- 20) = Some (mkdate 2004 2 29)) /\
  get_age (mkdate 2024 2 29) (mkdate 2004 2 29) = 20.
Proof.
  split; [split; reflexivity|].
  apply (X3_age_of_k_years_ago (mkdate 2024 2 29)); reflexivity.
Defined.

(** X4: when today is the date of birth shifted by [k] years, the age is
    exactly [k] and the years field of the remaining lifespan is exactly
    [life_expectancy - k]. *)
Theorem X4_anniversary_exact_years (t b : date) (k n : Z) (r : remaining) :
  valid_date b = true -> add_years b k = Some t ->
  get_remaining_lifespan t b n = Some r ->
  get_age t b = k /\ years r = n - k.
Proof.
  intros Hb Ek Er.
  pose proof (add_years_ordinal_approx b t k Hb Ek) as Ak.
  unfold get_remaining_lifespan in Er.
  destruct (add_years b n) as [dd|] eqn:En; cbn [obind] in Er; [|discriminate].
  injection Er as <-. cbn [years].
  pose proof (add_years_ordinal_approx b dd n Hb En) as An.
  unfold get_age, days_to_years, date_sub, SECONDS_PER_YEAR_NUM.
  split; apply round_div_exact; lia.
Qed.

Lemma X4_anniversary_exact_years_witness :
  (valid_date (mkdate 1990 6 15) = true /\
   add_years (mkdate 1990 6 15) 34 = Some (mkdate 2024 6 15) /\
   get_remaining_lifespan (mkdate 2024 6 15) (mkdate 1990 6 15) 80
   = Some {| days := 16801; weeks := 2400; years := 46 |}) /\
  get_age (mkdate 2024 6 15) (mkdate 1990 6 15) = 34 /\ 46 = 80 - 34.
Proof.
  split; [repeat split; vm_compute; reflexivity|].
  apply (X4_anniversary_exact_years (mkdate 2024 6 15) (mkdate 1990 6 15) 34 80
           {| days := 16801; weeks := 2400; years := 46 |});
    vm_compute; reflexivity.
Defined.

(** Of the two occurrences, the selected one is today exactly when today
    has their month and day. *)
Lemma selected_birthday_zero (t : date) (m d : Z) :
  valid_date t = true ->
  valid_date (mkdate (year t) m d) = true ->
  valid_date (mkdate (year t + 1) m d) = true ->
  date_sub (if date_lt (mkdate (year t) m d) t
            then mkdate (year t + 1) m d else mkdate (year t) m d) t = 0
  <-> month t = m /\ day t = d.
Proof.
  intros Ht V1 V2.
  pose proof (toordinal_year_bounds t Ht) as Tt.
  pose proof (toordinal_year_bounds _ V2) as T2. cbn [year] in T2.
  unfold date_sub.
  destruct (date_lt (mkdate (year t) m d) t) eqn:L.
  - split; intros H; [lia|].
    destruct H as [Hm Hd]. destruct t as [y m' d']; cbn [year month day] in *.
    subst. rewrite date_lt_irrefl in L. discriminate.
  - destruct (date_lt_total _ _ L) as [L'|Eq].
    + pose proof (toordinal_lt _ _ Ht V1 L') as O. split; intros H; [lia|].
      destruct H as [Hm Hd]. destruct t as [y m' d']; cbn [year month day] in *.
      subst. rewrite date_lt_irrefl in L'. discriminate.
    + assert (month t = m /\ day t = d) by (rewrite <- Eq; cbn [month day]; auto).
      rewrite Eq. split; [auto|lia].
Qed.

(** X5: for a birth date other than Feb 29, the days until the birthday
    are 0 exactly when today has the birth month and day. *)
Theorem X5_birthday_today_iff (t b : date) :
  valid_date t = true -> valid_date b = true -> is_feb29 b = false ->
  year t < MAXYEAR ->
  get_days_until_birthday t b = Some 0 <-> month t = month b /\ day t = day b.
Proof.
  intros Ht Hb F Hy.
  pose proof (get_days_until_birthday_eq t b Ht Hb Hy) as E. rewrite F in E.
  destruct E as (V1 & V2 & E). rewrite E.
  rewrite <- (selected_birthday_zero t (month b) (day b) Ht V1 V2).
  split; [intros H; injection H; auto | intros ->; reflexivity].
Qed.

Lemma X5_birthday_today_iff_witness :
  (valid_date (mkdate 2024 6 15) = true /\ valid_date (mkdate 1990 6 15) = true /\
   is_feb29 (mkdate 1990 6 15) = false /\ 2024 < MAXYEAR) /\
  (get_days_until_birthday (mkdate 2024 6 15) (mkdate 1990 6 15) = Some 0 <->
   month (mkdate 2024 6 15) = month (mkdate 1990 6 15) /\
   day (mkdate 2024 6 15) = day (mkdate 1990 6 15)).
Proof.
  split; [repeat split; reflexivity|].
  apply X5_birthday_today_iff; reflexivity.
Defined.

(** X6: adding the returned number of days to today lands on the next
    birthday: the birth month and day (Feb 28 for a Feb 29 birth date) in
    this year or the next. *)
Theorem X6_days_reach_birthday (t b : date) (n : Z) :
  valid_date t = true -> valid_date b = true ->
  get_days_until_birthday t b = Some n ->
  exists x, date_add_days t n = Some x /\
    (year x = year t \/ year x = year t + 1) /\
    (month x, day x) = (if is_feb29 b then (2, 28) else (month b, day b)).
Proof.
  intros Ht Hb En.
  assert (Hy : year t < MAXYEAR).
  { destruct (Z.eq_dec (year t) MAXYEAR) as [E|E].
    - rewrite (days_until_birthday_year_max t b E) in En. discriminate.
    - pose proof Ht as V. valid_facts V. unfold MAXYEAR in *. lia. }
  pose proof (get_days_until_birthday_eq t b Ht Hb Hy) as E.
  destruct (if is_feb29 b then (2, 28) else (month b, day b)) as [m d] eqn:MD.
  destruct E as (V1 & V2 & E). rewrite E in En. injection En as <-.
  set (nb := if date_lt (mkdate (year t) m d) t
             then mkdate (year t + 1) m d else mkdate (year t) m d).
  assert (Vn : valid_date nb = true) by (unfold nb; destruct (date_lt _ _); auto).
  pose proof (toordinal_range nb Vn).
  exists nb. split.
  - unfold date_add_days, date_sub.
    replace (toordinal t + (toordinal nb - toordinal t)) with (toordinal nb) by lia.
    replace ((0 <? toordinal nb) && (toordinal nb <=? MAXORDINAL)) with true
      by (symmetry; apply andb_true_iff; split; [apply Z.ltb_lt | apply Z.leb_le]; lia).
    rewrite ord2ymd_toordinal by assumption. reflexivity.
  - unfold nb. destruct (date_lt _ _); cbn [year month day]; auto.
Qed.

Lemma X6_days_reach_birthday_witness :
  (valid_date (mkdate 2023 3 1) = true /\ valid_date (mkdate 2000 2 29) = true /\
   get_days_until_birthday (mkdate 2023 3 1) (mkdate 2000 2 29) = Some 364) /\
  exists x, date_add_days (mkdate 2023 3 1) 364 = Some x /\
    (year x = year (mkdate 2023 3 1) \/ year x = year (mkdate 2023 3 1) + 1) /\
    (month x, day x) = (if is_feb29 (mkdate 2000 2 29) then (2, 28)
                        else (month (mkdate 2000 2 29), day (mkdate 2000 2 29))).
Proof.
  split; [repeat split; vm_compute; reflexivity|].
  apply (X6_days_reach_birthday (mkdate 2023 3 1) (mkdate 2000 2 29));
    vm_compute; reflexivity.
Defined.

(** X7: the days field of the remaining lifespan counts exactly from today
    to the projected date of death: today plus that many days is
    [date_of_birth + relativedelta(years=life_expectancy)]. *)
Theorem X7_days_reach_death_date (t b : date) (n : Z) (r : remaining) (dd : date) :
  get_remaining_lifespan t b n = Some r -> add_years b n = Some dd ->
  date_add_days t (days r) = Some dd.
Proof.
  intros Er Ed. unfold get_remaining_lifespan in Er. rewrite Ed in Er.
  cbn [obind] in Er. injection Er as <-. cbn [days].
  pose proof (add_years_valid _ _ _ Ed) as V.
  pose proof (toordinal_range dd V).
  unfold date_add_days, date_sub.
  replace (toordinal t + (toordinal dd - toordinal t)) with (toordinal dd) by lia.
  replace ((0 <? toordinal dd) && (toordinal dd <=? MAXORDINAL)) with true
    by (symmetry; apply andb_true_iff; split; [apply Z.ltb_lt | apply Z.leb_le]; lia).
  rewrite ord2ymd_toordinal by assumption. reflexivity.
Qed.

Lemma X7_days_reach_death_date_witness :
  (get_remaining_lifespan (mkdate 2024 3 1) (mkdate 2000 2 29) 80
   = Some {| days := 20453; weeks := 2922; years := 56 |} /\
   add_years (mkdate 2000 2 29) 80 = Some (mkdate 2080 2 29)) /\
  date_add_days (mkdate 2024 3 1) 20453 = Some (mkdate 2080 2 29).
Proof.
  split; [split; vm_compute; reflexivity|].
  apply (X7_days_reach_death_date (mkdate 2024 3 1) (mkdate 2000 2 29) 80
           {| days := 20453; weeks := 2922; years := 56 |});
    vm_compute; reflexivity.
Defined.

(** The widget arguments, when today's year is at least 101. *)
Lemma date_input_args_some (t : date) :
  valid_date t = true -> 101 <= year t ->
  exists v mn mx,
    date_input_args t = Some (v, mn, mx) /\
    add_years t (-20) = Some v /\ add_years t (-100) = Some mn /\
    valid_date mx = true /\ toordinal mx = toordinal t - 1.
Proof.
  intros Ht Hy. pose proof Ht as V. valid_facts V.
  assert (R20 : MINYEAR <= year t + -20 <= MAXYEAR) by (unfold MINYEAR, MAXYEAR; lia).
  assert (R100 : MINYEAR <= year t + -100 <= MAXYEAR) by (unfold MINYEAR, MAXYEAR; lia).
  pose proof (toordinal_range t Ht).
  pose proof (toordinal_year_bounds t Ht).
  pose proof (days_before_year_mono 101 (year t) Hy).
  change (days_before_year 101) with 36524 in *.
  destruct (date_add_days_spec t (-1) ltac:(lia)) as (mx & Emx & Vmx & Omx).
  unfold date_input_args.
  rewrite (add_years_some t (-20) Ht R20), (add_years_some t (-100) Ht R100), Emx.
  cbn [obind]. do 3 eexists. split; [reflexivity|]. auto.
Qed.

(** X8: the arguments of [st.date_input] in [get_date_of_birth] raise
    exactly when today's year is at most 100 ([today - 100 years] leaves
    Python's range). *)
Theorem X8_date_input_args_error (t : date) :
  valid_date t = true -> date_input_args t = None <-> year t <= 100.
Proof.
  intros Ht. split.
  - intros H. destruct (Z.le_gt_cases (year t) 100) as [|Hy]; [assumption|].
    destruct (date_input_args_some t Ht ltac:(lia)) as (v & mn & mx & E & _).
    congruence.
  - intros Hy. unfold date_input_args.
    destruct (add_years t (-20)); cbn [obind]; [|reflexivity].
    unfold add_years. rewrite mk_date_year_out by (unfold MINYEAR; lia).
    reflexivity.
Qed.

Lemma X8_date_input_args_error_witness :
  valid_date (mkdate 100 12 31) = true /\
  (date_input_args (mkdate 100 12 31) = None <-> year (mkdate 100 12 31) <= 100).
Proof.
  split; [reflexivity|]. apply X8_date_input_args_error. reflexivity.
Defined.

Lemma date_lt_iff_ord (a b : date) :
  valid_date a = true -> valid_date b = true ->
  date_lt a b = true <-> toordinal a < toordinal b.
Proof.
  intros Ha Hb. split; [apply toordinal_lt; assumption|].
  intros H. destruct (date_lt a b) eqn:L; [reflexivity|].
  pose proof (toordinal_le a b Ha Hb L). lia.
Qed.

Lemma date_add_days_inv (d e : date) (k : Z) :
  date_add_days d k = Some e -> valid_date e = true /\ toordinal e = toordinal d + k.
Proof.
  unfold date_add_days. intros H.
  destruct ((0 <? toordinal d + k) && (toordinal d + k <=? MAXORDINAL)) eqn:R;
    [|discriminate].
  injection H as <-. apply andb_true_iff in R as [R1 R2].
  apply Z.ltb_lt in R1. apply Z.leb_le in R2. apply ord2ymd_valid. lia.
Qed.

Lemma date_input_args_inv (t v mn mx : date) :
  date_input_args t = Some (v, mn, mx) ->
  add_years t (-20) = Some v /\ add_years t (-100) = Some mn /\
  date_add_days t (-1) = Some mx.
Proof.
  unfold date_input_args.
  destruct (add_years t (-20)) as [v'|]; cbn [obind]; [|discriminate].
  destruct (add_years t (-100)) as [mn'|]; cbn [obind]; [|discriminate].
  destruct (date_add_days t (-1)) as [mx'|]; cbn [obind]; [|discriminate].
  intros H. injection H as <- <- <-. auto.
Qed.

(** The dates the widget offers, unfolded. *)
Lemma widget_accepts_iff (t b : date) :
  valid_date t = true ->
  widget_accepts t b = true <->
  exists v mn mx, date_input_args t = Some (v, mn, mx) /\
    valid_date b = true /\ date_lt b mn = false /\ date_lt b t = true.
Proof.
  intros Ht. unfold widget_accepts.
  destruct (date_input_args t) as [[[v mn] mx]|] eqn:E.
  2:{ split; [discriminate|]. intros (v & mn & mx & E' & _). discriminate. }
  destruct (date_input_args_inv _ _ _ _ E) as (_ & _ & Emx).
  destruct (date_add_days_inv _ _ _ Emx) as [Vmx Omx].
  split.
  - intros H. repeat rewrite andb_true_iff in H. destruct H as [[Vb L1] L2].
    apply negb_true_iff in L1, L2. exists v, mn, mx.
    split; [reflexivity|]. split; [assumption|]. split; [assumption|].
    pose proof (toordinal_le mx b Vmx Vb L2).
    apply date_lt_iff_ord; auto. lia.
  - intros (v' & mn' & mx' & E' & Vb & L1 & L2). injection E' as <- <- <-.
    rewrite Vb, L1. cbn [negb andb].
    apply date_lt_iff_ord in L2; auto.
    apply negb_true_iff. destruct (date_lt mx b) eqn:L; [|reflexivity].
    apply (toordinal_lt _ _ Vmx Vb) in L. lia.
Qed.

(** X9: for today's year at least 101, the widget of [get_date_of_birth]
    offers exactly the valid dates strictly before today and not before
    [today - 100 years] ([max_value = today - 1 day] makes "at most
    yesterday" the same as "before today"), and its default value
    [today - 20 years] is one of them. *)
Theorem X9_widget_range (t mn : date) :
  valid_date t = true -> 101 <= year t -> add_years t (-100) = Some mn ->
  (forall b, widget_accepts t b = true <->
             valid_date b = true /\ date_lt b mn = false /\ date_lt b t = true) /\
  (forall v, add_years t (-20) = Some v -> widget_accepts t v = true).
Proof.
  intros Ht Hy Emn.
  destruct (date_input_args_some t Ht Hy) as (v0 & mn0 & mx0 & E & Ev & Emn0 & _).
  rewrite Emn in Emn0. injection Emn0 as <-.
  split.
  - intros b. rewrite (widget_accepts_iff t b Ht). split.
    + intros (v & mn' & mx & E' & H). rewrite E in E'. injection E' as _ <- _. exact H.
    + intros H. exists v0, mn, mx0. auto.
  - intros v Ev'. rewrite Ev in Ev'. injection Ev' as <-.
    apply (widget_accepts_iff t v0 Ht). exists v0, mn, mx0.
    pose proof Ht as V. valid_facts V.
    pose proof (add_years_some t (-20) Ht ltac:(unfold MINYEAR, MAXYEAR; lia)) as A20.
    pose proof (add_years_some t (-100) Ht ltac:(unfold MINYEAR, MAXYEAR; lia)) as A100.
    rewrite Ev in A20. rewrite Emn in A100.
    injection A20 as ->. injection A100 as ->.
    split; [exact E|]. split; [exact (add_years_valid _ _ _ Ev)|].
    unfold date_lt; cbn [year month day]. split.
    + destruct (Z.ltb_spec (year t + -20) (year t + -100)); [lia|].
      destruct (Z.eqb_spec (year t + -20) (year t + -100)); [lia|]. reflexivity.
    + destruct (Z.ltb_spec (year t + -20) (year t)); [reflexivity|lia].
Qed.

Lemma X9_widget_range_witness :
  (valid_date (mkdate 2024 6 15) = true /\ 101 <= 2024 /\
   add_years (mkdate 2024 6 15) (-100) = Some (mkdate 1924 6 15)) /\
  (widget_accepts (mkdate 2024 6 15) (mkdate 1990 6 15) = true <->
   valid_date (mkdate 1990 6 15) = true /\
   date_lt (mkdate 1990 6 15) (mkdate 1924 6 15) = false /\
   date_lt (mkdate 1990 6 15) (mkdate 2024 6 15) = true).
Proof.
  split; [split; [reflexivity | split; [lia | vm_compute; reflexivity]]|].
  refine (proj1 (X9_widget_range (mkdate 2024 6 15) (mkdate 1924 6 15) _ _ _)
            (mkdate 1990 6 15));
    [reflexivity | cbn [year]; lia | vm_compute; reflexivity].
Defined.

(** X10: every date the widget offers is before today and gives an age
    between 0 and 100. *)
Theorem X10_widget_age_range (t b : date) :
  valid_date t = true -> widget_accepts t b = true ->
  date_lt b t = true /\ 0 <= get_age t b <= 100.
Proof.
  intros Ht H. apply (widget_accepts_iff t b Ht) in H.
  destruct H as (v & mn & mx & E & Vb & L1 & L2).
  destruct (date_input_args_inv _ _ _ _ E) as (_ & Emn & _).
  pose proof (add_years_ordinal_approx t mn (-100) Ht Emn).
  pose proof (add_years_valid _ _ _ Emn) as Vmn.
  pose proof (toordinal_le b mn Vb Vmn L1).
  apply date_lt_iff_ord in L2; auto.
  split; [apply date_lt_iff_ord; auto|].
  unfold get_age, days_to_years, date_sub, SECONDS_PER_YEAR_NUM.
  pose proof (round_div_bound ((toordinal t - toordinal b) * 10000) 3652425
                ltac:(lia)).
  lia.
Qed.

Lemma X10_widget_age_range_witness :
  (valid_date (mkdate 2024 6 15) = true /\
   widget_accepts (mkdate 2024 6 15) (mkdate 1924 6 15) = true) /\
  date_lt (mkdate 1924 6 15) (mkdate 2024 6 15) = true /\
  0 <= get_age (mkdate 2024 6 15) (mkdate 1924 6 15) <= 100.
Proof.
  split; [split; vm_compute; reflexivity|].
  apply X10_widget_age_range; vm_compute; reflexivity.
Defined.

Lemma show_message_turn_exists (t : date) (age dub le : Z) (rem : remaining) :
  existsb is_turn_line (show_message t age dub le rem) = negb (dub =? 0).
Proof.
  unfold show_message. rewrite !existsb_app.
  destruct (negb (dub =? 0)); [destruct (1 <? dub)|];
  destruct (age <? le); reflexivity.
Qed.

Lemma main_eq (t b : date) (clicked : bool) (le : Z) :
  valid_date t = true -> widget_accepts t b = true ->
  year t < MAXYEAR -> 0 <= le -> year t + le <= MAXYEAR ->
  exists rem dub,
    get_remaining_lifespan t b le = Some rem /\
    get_days_until_birthday t b = Some dub /\
    main t b clicked le =
    Some (if clicked then show_message t (get_age t b) dub le rem else []).
Proof.
  intros Ht Hw Hy Hle Hyl.
  pose proof Hw as W. apply (widget_accepts_iff t b Ht) in W.
  destruct W as (v & mn & mx & E & Vb & _ & Lt).
  assert (Hby : year b <= year t).
  { unfold date_lt in Lt. destruct (Z.ltb_spec (year b) (year t)); [lia|].
    cbn [orb] in Lt. apply andb_true_iff in Lt as [Lt _]. apply Z.eqb_eq in Lt. lia. }
  assert (R : MINYEAR <= year b + le <= MAXYEAR).
  { pose proof Vb as V. valid_facts V. unfold MINYEAR, MAXYEAR in *. lia. }
  pose proof (add_years_some b le Vb R) as A.
  pose proof (get_days_until_birthday_eq t b Ht Vb Hy) as D.
  assert (D' : exists dub, get_days_until_birthday t b = Some dub).
  { destruct (is_feb29 b); destruct D as (_ & _ & D); eexists; exact D. }
  destruct D' as [dub D'].
  unfold main, get_date_of_birth. rewrite E. cbn [obind].
  unfold get_remaining_lifespan. rewrite A. cbn [obind]. rewrite D'. cbn [obind].
  do 2 eexists. split; [reflexivity|]. split; [reflexivity|]. reflexivity.
Qed.

(** X11: [main] never raises for a date the widget offers, as long as
    today's year is below 9999 and the projected year of death
    [year(today) + life_expectancy] stays in range (today's year at most
    9919 for the default 80); without a click it shows nothing. *)
Theorem X11_main_no_error (t b : date) (clicked : bool) (le : Z) :
  valid_date t = true -> widget_accepts t b = true ->
  year t < MAXYEAR -> 0 <= le -> year t + le <= MAXYEAR ->
  exists out, main t b clicked le = Some out /\ (clicked = false -> out = []).
Proof.
  intros Ht Hw Hy Hle Hyl.
  destruct (main_eq t b clicked le Ht Hw Hy Hle Hyl) as (rem & dub & _ & _ & M).
  rewrite M. eexists. split; [reflexivity|]. intros ->. reflexivity.
Qed.

Lemma X11_main_no_error_witness :
  (valid_date (mkdate 2024 6 15) = true /\
   widget_accepts (mkdate 2024 6 15) (mkdate 1990 6 15) = true /\
   2024 < MAXYEAR /\ 0 <= 80 /\ 2024 + 80 <= MAXYEAR) /\
  exists out, main (mkdate 2024 6 15) (mkdate 1990 6 15) true 80 = Some out /\
              (true = false -> out = []).
Proof.
  split; [repeat split; try (vm_compute; reflexivity); discriminate|].
  apply (X11_main_no_error (mkdate 2024 6 15) (mkdate 1990 6 15) true 80);
    try (vm_compute; reflexivity); discriminate.
Defined.

(** X12: when the button is clicked, [main] shows a "you will turn" line
    exactly when today's month and day differ from the birth month and
    day (for a birth date other than Feb 29). *)
Theorem X12_main_turn_line (t b : date) (le : Z) (out : list output) :
  valid_date t = true -> widget_accepts t b = true -> is_feb29 b = false ->
  year t < MAXYEAR -> 0 <= le -> year t + le <= MAXYEAR ->
  main t b true le = Some out ->
  existsb is_turn_line out = true <-> ~ (month t = month b /\ day t = day b).
Proof.
  intros Ht Hw F Hy Hle Hyl Hm.
  destruct (main_eq t b true le Ht Hw Hy Hle Hyl) as (rem & dub & _ & D & M).
  rewrite M in Hm. injection Hm as <-. rewrite show_message_turn_exists.
  pose proof Hw as W. apply (widget_accepts_iff t b Ht) in W.
  destruct W as (_ & _ & _ & _ & Vb & _ & _).
  pose proof (get_days_until_birthday_eq t b Ht Vb Hy) as E. rewrite F in E.
  destruct E as (V1 & V2 & E). rewrite E in D. injection D as <-.
  rewrite <- (selected_birthday_zero t (month b) (day b) Ht V1 V2).
  match goal with |- context [?x =? 0] => destruct (Z.eqb_spec x 0) end;
    cbn [negb]; intuition discriminate.
Qed.

Lemma X12_main_turn_line_witness :
  (valid_date (mkdate 2024 6 14) = true /\
   widget_accepts (mkdate 2024 6 14) (mkdate 1990 6 15) = true /\
   is_feb29 (mkdate 1990 6 15) = false /\
   2024 < MAXYEAR /\ 0 <= 80 /\ 2024 + 80 <= MAXYEAR /\
   main (mkdate 2024 6 14) (mkdate 1990 6 15) true 80 =
   Some (show_message (mkdate 2024 6 14) 34 1 80
           {| days := 16802; weeks := 2400; years := 46 |})) /\
  (existsb is_turn_line (show_message (mkdate 2024 6 14) 34 1 80
                           {| days := 16802; weeks := 2400; years := 46 |}) = true <->
   ~ (month (mkdate 2024 6 14) = month (mkdate 1990 6 15) /\
      day (mkdate 2024 6 14) = day (mkdate 1990 6 15))).
Proof.
  split; [repeat split; try (vm_compute; reflexivity); discriminate|].
  apply (X12_main_turn_line (mkdate 2024 6 14) (mkdate 1990 6 15) 80);
    try (vm_compute; reflexivity); discriminate.
Defined.

(** X13: [show_message] always opens with the age line, always shows the
    "will you live to see next year" line, always closes with the memento
    mori pair, and shows the remaining-lifespan figures (years, weeks,
    days of the record) exactly when [age < life_expectancy]. *)
Theorem X13_show_message_layout (t : date) (age dub le : Z) (rem : remaining) :
  hd_error (show_message t age dub le rem) = Some (Markdown (L_age age)) /\
  skipn (List.length (show_message t age dub le rem) - 3) (show_message t age dub le rem)
  = [Write L_empty; Markdown L_memento; Markdown L_live] /\
  In (Markdown (L_will_you_live (year t + 1))) (show_message t age dub le rem) /\
  (In (Markdown (L_remaining (years rem) (weeks rem) (days rem)))
      (show_message t age dub le rem) <-> age < le).
Proof.
  unfold show_message.
  destruct (negb (dub =? 0)); [destruct (1 <? dub)|];
  destruct (Z.ltb_spec age le) as [Hl|Hl]; cbn [app In];
  (split; [reflexivity|]); (split; [reflexivity|]);
  (split; [tauto|]);
  split; intros H; try lia; intuition congruence.
Qed.
